(** * teckel documentation macros: the [remove_code_promt] filter

    A verification development for [_pages/main.py].  The module compiles one
    regular expression, [BYEXMAPLE_PROMT_RE], defines the replacement callback
    [byexample_repl] and registers the text filter [remove_code_promt], which
    is [BYEXMAPLE_PROMT_RE.sub(byexample_repl, text)].

    Python's [str] is modelled by [string]; the pattern only ever compares a
    character against [>], [.], [=], the space and the line feed, so any other
    character is opaque content that is copied. *)

From Stdlib Require Import Ascii String List Bool Arith Lia.
Import ListNotations.

Local Open Scope string_scope.
Local Open Scope bool_scope.

(** ** Characters the pattern looks at *)

Definition LF : ascii := "010"%char.
Definition CR : ascii := "013"%char.
Definition SP : ascii := " "%char.

(** The one-character string holding a line feed. *)
Definition eol : string := String LF "".

(** ** Python results: a value or a raised exception *)

Inductive exn : Set :=
| IndexError.   (* Match.group: "no such group" *)

Inductive result (A : Type) : Type :=
| Ok (a : A)
| Raise (e : exn).

Arguments Ok {A} a.
Arguments Raise {A} e.

Definition bind {A B : Type} (r : result A) (k : A -> result B) : result B :=
  match r with
  | Ok a => k a
  | Raise e => Raise e
  end.

Notation "x <- r ;; k" := (bind r (fun x => k))
  (at level 61, r at next level, right associativity).

(** ** The fragment of Python's [re] that the module uses *)

Module Re.

(** Pattern syntax: literals, the two anchors as they behave under [re.M],
    concatenation, ordered alternation and numbered capturing groups. *)
Inductive regex : Set :=
| Lit (c : ascii)
| Bol                          (* ^ with re.MULTILINE *)
| Eol                          (* $ with re.MULTILINE *)
| Cat (r1 r2 : regex)
| Alt (r1 r2 : regex)
| Group (n : nat) (r : regex).

(** Number of capturing groups of a pattern ([Pattern.groups]). *)
Fixpoint ngroups (r : regex) : nat :=
  match r with
  | Lit _ | Bol | Eol => 0
  | Cat r1 r2 | Alt r1 r2 => Nat.max (ngroups r1) (ngroups r2)
  | Group n r' => Nat.max n (ngroups r')
  end.

Definition captures := list (nat * string).

Fixpoint lookup (n : nat) (g : captures) : option string :=
  match g with
  | [] => None
  | (k, v) :: g' => if Nat.eqb k n then Some v else lookup n g'
  end.

(** One way of matching a pattern at a position: the text consumed, the
    character now standing before the cursor, the text still ahead, and the
    groups captured on the way. *)
Record path : Set := mkPath {
  p_text : string;
  p_prev : option ascii;
  p_rest : string;
  p_caps : captures
}.

(** [^] under [re.M]: at the start of the text or right after a line feed. *)
Definition at_bol (prev : option ascii) : bool :=
  match prev with
  | None => true
  | Some c => Ascii.eqb c LF
  end.

(** [$] under [re.M]: at the end of the text or right before a line feed. *)
Definition at_eol (rest : string) : bool :=
  match rest with
  | EmptyString => true
  | String c _ => Ascii.eqb c LF
  end.

(** Every way of matching [r] with the cursor between [prev] and [s], in the
    order a backtracking matcher tries them (left alternative first). *)
Fixpoint paths (r : regex) (prev : option ascii) (s : string) (g : captures)
  : list path :=
  match r with
  | Lit c =>
      match s with
      | String c' s' =>
          if Ascii.eqb c' c then [mkPath (String c' "") (Some c') s' g] else []
      | EmptyString => []
      end
  | Bol => if at_bol prev then [mkPath "" prev s g] else []
  | Eol => if at_eol s then [mkPath "" prev s g] else []
  | Cat r1 r2 =>
      flat_map
        (fun p1 =>
           map (fun p2 => mkPath (p_text p1 ++ p_text p2)
                                 (p_prev p2) (p_rest p2) (p_caps p2))
               (paths r2 (p_prev p1) (p_rest p1) (p_caps p1)))
        (paths r1 prev s g)
  | Alt r1 r2 => paths r1 prev s g ++ paths r2 prev s g
  | Group n r' =>
      map (fun p => mkPath (p_text p) (p_prev p) (p_rest p)
                           ((n, p_text p) :: p_caps p))
          (paths r' prev s g)
  end.

(** A match object: group 0, the captured groups and the pattern's number
    of groups. *)
Record Match : Set := mkMatch {
  m_text : string;
  m_caps : captures;
  m_ngroups : nat
}.

(** [Match.group(n)]: the whole match for 0, the captured text (or [None]
    when the group took no part) for a group of the pattern, [IndexError]
    for any other number. *)
Definition group (m : Match) (n : nat) : result (option string) :=
  match n with
  | O => Ok (Some (m_text m))
  | S _ => if Nat.leb n (m_ngroups m) then Ok (lookup n (m_caps m))
           else Raise IndexError
  end.

(** The match the engine reports at one position: the first path. *)
Definition match_here (r : regex) (prev : option ascii) (s : string)
  : option Match :=
  match paths r prev s [] with
  | [] => None
  | p :: _ => Some (mkMatch (p_text p) (p_caps p) (ngroups r))
  end.

(** The match the engine reports at a position where it must advance (the
    position of the empty match it has just reported): the first path that
    consumes at least one character. *)
Definition match_advancing (r : regex) (prev : option ascii) (s : string)
  : option Match :=
  match filter (fun p => negb (String.eqb (p_text p) ""))
               (paths r prev s []) with
  | [] => None
  | p :: _ => Some (mkMatch (p_text p) (p_caps p) (ngroups r))
  end.

(** [Pattern.sub(repl, text)] with a callable [repl]: scan the text from left
    to right; where the pattern matches, emit [repl(match)] and resume at the
    end of the match, otherwise copy one character.  [skip] counts the
    characters of the last match that the cursor still has to step over, so
    that [prev] is always the character of the ORIGINAL text before the
    cursor, which is what [^] inspects.  After an empty match the engine
    searches again from the same position for a match that advances: if
    there is one here its replacement is emitted too, otherwise the
    character at the cursor is copied and the scan moves on. *)
Fixpoint sub_loop (r : regex) (repl : Match -> result string)
    (skip : nat) (prev : option ascii) (s : string) {struct s}
  : result string :=
  match skip with
  | S k =>
      match s with
      | EmptyString => Ok ""
      | String c s' => sub_loop r repl k (Some c) s'
      end
  | O =>
      (* the rest of the output: after a match of [k + 1] characters
         ([Some k]), or after copying the character at the cursor ([None]) *)
      let resume (consumed : option nat) : result string :=
        match s with
        | EmptyString => Ok ""
        | String c s' =>
            match consumed with
            | Some k => sub_loop r repl k (Some c) s'
            | None => t <- sub_loop r repl 0 (Some c) s' ;; Ok (String c t)
            end
        end in
      match match_here r prev s with
      | Some m =>
          piece <- repl m ;;
          match String.length (m_text m) with
          | S k => tail <- resume (Some k) ;; Ok (piece ++ tail)
          | O =>
              match match_advancing r prev s with
              | Some m' =>
                  piece' <- repl m' ;;
                  tail <- resume (Some (Nat.pred (String.length (m_text m')))) ;;
                  Ok (piece ++ piece' ++ tail)
              | None => tail <- resume None ;; Ok (piece ++ tail)
              end
          end
      | None => resume None
      end
  end.

Definition sub (r : regex) (repl : Match -> result string) (text : string)
  : result string :=
  sub_loop r repl 0 None text.

End Re.

Import Re.

(** ** The module *)

(** [BYEXMAPLE_PROMT_RE = re.compile(r"^(>>|\.\.|=>)( |$)", re.M)] *)
Definition BYEXMAPLE_PROMT_RE : regex :=
  Cat Bol
      (Cat (Group 1 (Alt (Cat (Lit ">") (Lit ">"))
                    (Alt (Cat (Lit ".") (Lit "."))
                         (Cat (Lit "=") (Lit ">")))))
           (Group 2 (Alt (Lit " ") Eol))).

Definition opt_string_eqb (o : option string) (s : string) : bool :=
  match o with
  | Some t => String.eqb t s
  | None => false
  end.

(** [byexample_repl(matchobj)] *)
Definition byexample_repl (matchobj : Match) : result string :=
  g1 <- group matchobj 1 ;;
  if opt_string_eqb g1 "=>" then Ok "#=> " else Ok "".

(** [remove_code_promt(text)], the registered filter. *)
Definition remove_code_promt (text : string) : result string :=
  sub BYEXMAPLE_PROMT_RE byexample_repl text.

(** ** Lines, and the rule of the specification on one line *)

(** Number of line feeds of a text. *)
Fixpoint count_LF (s : string) : nat :=
  match s with
  | EmptyString => 0
  | String c t => (if Ascii.eqb c LF then 1 else 0) + count_LF t
  end.

(** A text that is one line: it holds no line feed. *)
Definition single_line (l : string) : Prop := count_LF l = 0.

(** The lines of a text: the pieces between line feeds ([text.split("\n")]). *)
Fixpoint split_lines (s : string) : list string :=
  match s with
  | EmptyString => [""]
  | String c t =>
      if Ascii.eqb c LF then "" :: split_lines t
      else match split_lines t with
           | l :: ls => String c l :: ls
           | [] => [String c ""]
           end
  end.

(** Lines put back together with a line feed between them. *)
Definition join_lines (ls : list string) : string := String.concat eol ls.

(** [startswith p s]: [p] is a prefix of [s]. *)
Fixpoint startswith (p s : string) : bool :=
  match p, s with
  | EmptyString, _ => true
  | String a p', String b s' => Ascii.eqb b a && startswith p' s'
  | String _ _, EmptyString => false
  end.

(** [drop n s]: [s] without its first [n] characters. *)
Fixpoint drop (n : nat) (s : string) : string :=
  match n, s with
  | O, _ => s
  | S n', String _ s' => drop n' s'
  | S _, EmptyString => ""
  end.

(** The three prompt tokens. *)
Definition tokens : list string := [">>"; ".."; "=>"].

(** A line carries the prompt [tok] when it starts with the token followed
    by a space, or is the token alone (the token is followed by the end of
    the line). *)
Definition token_matches (l tok : string) : bool :=
  startswith (tok ++ " ") l || String.eqb l tok.

Definition starts_with_prompt (l : string) : bool :=
  existsb (token_matches l) tokens.

(** Length of the matched span: the token and, if present, its space. *)
Definition span_length (l tok : string) : nat :=
  if startswith (tok ++ " ") l then 3 else 2.

Definition token_replacement (tok : string) : string :=
  if String.eqb tok "=>" then "#=> " else "".

(** The rule applied to the start of one line. *)
Definition rewrite_line (l : string) : string :=
  match find (token_matches l) tokens with
  | Some tok => token_replacement tok ++ drop (span_length l tok) l
  | None => l
  end.

(** The line-by-line implementation: split, rewrite each line, rejoin. *)
Definition remove_prompts_by_line (text : string) : string :=
  join_lines (map rewrite_line (split_lines text)).

(** ** The scan, written out for this pattern *)

(** The three two-character tokens of group 1. *)
Definition is_token (c1 c2 : ascii) : bool :=
  (Ascii.eqb c1 ">" && Ascii.eqb c2 ">")
  || (Ascii.eqb c1 "." && Ascii.eqb c2 ".")
  || (Ascii.eqb c1 "=" && Ascii.eqb c2 ">").

(** What [byexample_repl] returns for a token starting with [c1]. *)
Definition replacement (c1 : ascii) : string :=
  if Ascii.eqb c1 "=" then "#=> " else "".

(** The match of [BYEXMAPLE_PROMT_RE] at a position, spelled out. *)
Definition prompt_here (prev : option ascii) (s : string) : option Match :=
  if at_bol prev then
    match s with
    | String c1 (String c2 t) =>
        let tok := String c1 (String c2 "") in
        if is_token c1 c2 then
          match t with
          | EmptyString => Some (mkMatch tok [(2, ""); (1, tok)] 2)
          | String c3 _ =>
              if Ascii.eqb c3 SP
              then Some (mkMatch (tok ++ " ") [(2, " "); (1, tok)] 2)
              else if Ascii.eqb c3 LF
                   then Some (mkMatch tok [(2, ""); (1, tok)] 2)
                   else None
          end
        else None
    | _ => None
    end
  else None.

(** Output of the substitution from a position on; [bol] tells whether the
    position is a line start. *)
Fixpoint scan (bol : bool) (s : string) : string :=
  match s with
  | EmptyString => ""
  | String c1 t1 =>
      let copy := String c1 (scan (Ascii.eqb c1 LF) t1) in
      if bol then
        match t1 with
        | String c2 t2 =>
            if is_token c1 c2 then
              match t2 with
              | EmptyString => replacement c1
              | String c3 t3 =>
                  if Ascii.eqb c3 SP then replacement c1 ++ scan false t3
                  else if Ascii.eqb c3 LF
                       then replacement c1 ++ String c3 (scan true t3)
                       else copy
              end
            else copy
        | EmptyString => copy
        end
      else copy
  end.

(** The loop of [remove_code_promt], from any position. *)
Definition loop : nat -> option ascii -> string -> result string :=
  sub_loop BYEXMAPLE_PROMT_RE byexample_repl.

(** The filter applied to its own output. *)
Definition remove_code_promt_twice (x : string) : result string :=
  y <- remove_code_promt x ;; remove_code_promt y.

(** A line whose deleted prompt ([>>] or [..] with its space) is directly
    followed by another prompt. *)
Definition nested_prompt (l : string) : bool :=
  (startswith ">> " l || startswith ".. " l) && starts_with_prompt (drop 3 l).

(** ** Measures and repeated runs *)

(** Number of occurrences of the character [c] in a text. *)
Fixpoint count_char (c : ascii) (s : string) : nat :=
  match s with
  | EmptyString => 0
  | String a t => (if Ascii.eqb c a then 1 else 0) + count_char c t
  end.

(** The characters a replacement can remove or insert. *)
Definition prompt_char (c : ascii) : bool :=
  Ascii.eqb c ">" || Ascii.eqb c "." || Ascii.eqb c "="
  || Ascii.eqb c SP || Ascii.eqb c "#".

(** The filter run [n] times, each run on the output of the one before. *)
Fixpoint remove_code_promt_iter (n : nat) (text : string) : result string :=
  match n with
  | O => Ok text
  | S k => y <- remove_code_promt text ;; remove_code_promt_iter k y
  end.

(** The line rule applied [n] times. *)
Fixpoint rewrite_line_iter (n : nat) (l : string) : string :=
  match n with
  | O => l
  | S k => rewrite_line_iter k (rewrite_line l)
  end.

(** Case analysis on every character test in the goal. *)
Ltac ascii_cases :=
  repeat match goal with
         | |- context [Ascii.eqb ?a ?b] =>
             destruct (Ascii.eqb_spec a b); subst; cbn in *
         end.

Lemma match_here_prompt (prev : option ascii) (s : string) :
  match_here BYEXMAPLE_PROMT_RE prev s = prompt_here prev s.
Proof.
  unfold match_here, prompt_here.
  destruct (at_bol prev) eqn:Hbol; cbn; rewrite Hbol; [|reflexivity].
  destruct s as [|c1 [|c2 [|c3 t]]]; cbn.
  - reflexivity.
  - unfold is_token. ascii_cases; reflexivity.
  - unfold is_token. ascii_cases; try reflexivity; try congruence.
  - unfold is_token, SP, LF in *.
    ascii_cases; try reflexivity; try congruence; exfalso; auto.
Qed.

(** *** Facts about strings *)

Lemma append_nil_r (s : string) : s ++ "" = s.
Proof. induction s as [|c s IH]; cbn; [reflexivity | now rewrite IH]. Qed.

Lemma append_assoc (s t u : string) : (s ++ t) ++ u = s ++ (t ++ u).
Proof. induction s as [|c s IH]; cbn; [reflexivity | now rewrite IH]. Qed.

Lemma length_append (s t : string) :
  String.length (s ++ t) = String.length s + String.length t.
Proof. induction s as [|c s IH]; cbn; [reflexivity | now rewrite IH]. Qed.

(** *** Unfolding the substitution loop *)

Lemma sub_loop_0 (r : regex) (repl : Match -> result string)
    (prev : option ascii) (s : string) :
  sub_loop r repl 0 prev s =
  let resume (consumed : option nat) : result string :=
    match s with
    | EmptyString => Ok ""
    | String c s' =>
        match consumed with
        | Some k => sub_loop r repl k (Some c) s'
        | None => t <- sub_loop r repl 0 (Some c) s' ;; Ok (String c t)
        end
    end in
  match match_here r prev s with
  | Some m =>
      piece <- repl m ;;
      match String.length (m_text m) with
      | S k => tail <- resume (Some k) ;; Ok (piece ++ tail)
      | O =>
          match match_advancing r prev s with
          | Some m' =>
              piece' <- repl m' ;;
              tail <- resume (Some (Nat.pred (String.length (m_text m')))) ;;
              Ok (piece ++ piece' ++ tail)
          | None => tail <- resume None ;; Ok (piece ++ tail)
          end
      end
  | None => resume None
  end.
Proof. destruct s; reflexivity. Qed.

Lemma sub_loop_S (r : regex) (repl : Match -> result string)
    (k : nat) (prev : option ascii) (c : ascii) (s : string) :
  sub_loop r repl (S k) prev (String c s) = sub_loop r repl k (Some c) s.
Proof. reflexivity. Qed.

Lemma loop_copy (prev : option ascii) (c : ascii) (t : string) :
  prompt_here prev (String c t) = None ->
  loop 0 prev (String c t) = (x <- loop 0 (Some c) t ;; Ok (String c x)).
Proof.
  intros H. unfold loop. rewrite sub_loop_0, match_here_prompt, H. reflexivity.
Qed.

Lemma loop_end (prev : option ascii) : loop 0 prev "" = Ok "".
Proof.
  unfold loop. rewrite sub_loop_0, match_here_prompt.
  unfold prompt_here. destruct (at_bol prev); reflexivity.
Qed.

Lemma byexample_repl_token (c1 c2 : ascii) (txt d : string) :
  is_token c1 c2 = true ->
  byexample_repl
    (mkMatch txt [(2, d); (1, String c1 (String c2 ""))] 2)
  = Ok (replacement c1).
Proof.
  unfold is_token, byexample_repl, replacement. cbn.
  ascii_cases; intros; try reflexivity; try discriminate.
Qed.

Lemma token_not_LF (c1 c2 : ascii) :
  is_token c1 c2 = true -> Ascii.eqb c2 LF = false.
Proof.
  unfold is_token, LF. ascii_cases; intros; try reflexivity; discriminate.
Qed.

Lemma loop_token_end (prev : option ascii) (c1 c2 : ascii) :
  at_bol prev = true -> is_token c1 c2 = true ->
  loop 0 prev (String c1 (String c2 "")) = Ok (replacement c1).
Proof.
  intros Hb Ht. unfold loop.
  rewrite sub_loop_0, match_here_prompt. unfold prompt_here.
  rewrite Hb, Ht, byexample_repl_token by assumption.
  cbn [String.length m_text bind]. rewrite !sub_loop_S.
  fold loop. rewrite loop_end. cbn [bind]. now rewrite append_nil_r.
Qed.

Lemma loop_token_space (prev : option ascii) (c1 c2 : ascii) (t : string) :
  at_bol prev = true -> is_token c1 c2 = true ->
  loop 0 prev (String c1 (String c2 (String SP t)))
  = (x <- loop 0 (Some SP) t ;; Ok (replacement c1 ++ x)).
Proof.
  intros Hb Ht. unfold loop.
  rewrite sub_loop_0, match_here_prompt. unfold prompt_here.
  rewrite Hb, Ht. cbn [Ascii.eqb SP Bool.eqb andb].
  rewrite byexample_repl_token by assumption.
  reflexivity.
Qed.

Lemma loop_token_LF (prev : option ascii) (c1 c2 : ascii) (t : string) :
  at_bol prev = true -> is_token c1 c2 = true ->
  loop 0 prev (String c1 (String c2 (String LF t)))
  = (x <- loop 0 (Some LF) t ;; Ok (replacement c1 ++ String LF x)).
Proof.
  intros Hb Ht. unfold loop.
  rewrite sub_loop_0, match_here_prompt. unfold prompt_here.
  rewrite Hb, Ht. cbn [Ascii.eqb SP LF Bool.eqb andb].
  rewrite byexample_repl_token by assumption.
  cbn [String.length m_text bind]. rewrite !sub_loop_S.
  rewrite sub_loop_0, match_here_prompt. unfold prompt_here.
  cbn [at_bol]. rewrite (token_not_LF c1 c2 Ht).
  destruct (sub_loop _ _ 0 (Some LF) t); reflexivity.
Qed.

(** *** The loop computes [scan] *)

Lemma scan_copy (c : ascii) (t : string) :
  scan false (String c t) = String c (scan (Ascii.eqb c LF) t).
Proof. reflexivity. Qed.

Lemma loop_scan_n (n : nat) :
  forall (s : string) (prev : option ascii),
    String.length s <= n ->
    loop 0 prev s = Ok (scan (at_bol prev) s).
Proof.
  induction n as [|n IH]; intros s prev Hlen.
  - destruct s; [apply loop_end | cbn in Hlen; lia].
  - destruct s as [|c1 t1]; [apply loop_end|].
    assert (Hcopy : prompt_here prev (String c1 t1) = None ->
                    loop 0 prev (String c1 t1)
                    = Ok (String c1 (scan (Ascii.eqb c1 LF) t1))).
    { intros Hnone. rewrite (loop_copy _ _ _ Hnone).
      rewrite IH by (cbn in Hlen; lia). reflexivity. }
    destruct (at_bol prev) eqn:Hb.
    2:{ apply Hcopy. unfold prompt_here. now rewrite Hb. }
    destruct t1 as [|c2 t2].
    { apply Hcopy. unfold prompt_here. now rewrite Hb. }
    cbn [scan]. destruct (is_token c1 c2) eqn:Ht.
    2:{ apply Hcopy. unfold prompt_here. now rewrite Hb, Ht. }
    destruct t2 as [|c3 t3]; [now apply loop_token_end|].
    destruct (Ascii.eqb_spec c3 SP) as [->|Hsp].
    { rewrite loop_token_space by assumption.
      rewrite IH by (cbn in Hlen; lia). reflexivity. }
    destruct (Ascii.eqb_spec c3 LF) as [->|Hlf].
    { rewrite loop_token_LF by assumption.
      rewrite IH by (cbn in Hlen; lia). reflexivity. }
    apply Hcopy. unfold prompt_here. rewrite Hb, Ht.
    apply Ascii.eqb_neq in Hsp, Hlf. now rewrite Hsp, Hlf.
Qed.

Lemma remove_code_promt_scan (text : string) :
  remove_code_promt text = Ok (scan true text).
Proof.
  unfold remove_code_promt, sub. fold loop.
  now rewrite (loop_scan_n (String.length text)).
Qed.

(** *** Lines *)

Lemma single_line_cons (c : ascii) (t : string) :
  single_line (String c t) <-> c <> LF /\ single_line t.
Proof.
  unfold single_line. cbn.
  destruct (Ascii.eqb_spec c LF); split; try lia; intuition congruence.
Qed.

Lemma single_line_append (s t : string) :
  single_line (s ++ t) <-> single_line s /\ single_line t.
Proof.
  induction s as [|c s IH]; cbn.
  - unfold single_line at 2. cbn. tauto.
  - rewrite !single_line_cons, IH. tauto.
Qed.

Lemma count_LF_append (s t : string) :
  count_LF (s ++ t) = count_LF s + count_LF t.
Proof. induction s as [|c s IH]; cbn; [reflexivity | rewrite IH; lia]. Qed.

Lemma split_lines_not_nil (s : string) : split_lines s <> [].
Proof.
  induction s as [|c s IH]; cbn; [discriminate|].
  destruct (Ascii.eqb c LF); [discriminate|].
  destruct (split_lines s); discriminate.
Qed.

Lemma split_lines_single (s : string) : Forall single_line (split_lines s).
Proof.
  induction s as [|c s IH]; cbn.
  - repeat constructor.
  - destruct (Ascii.eqb_spec c LF) as [->|Hc].
    + constructor; [reflexivity | assumption].
    + destruct (split_lines s) as [|l ls] eqn:E;
        [now destruct (split_lines_not_nil s)|].
      inversion IH; subst. constructor; [|assumption].
      apply single_line_cons. now split.
Qed.

Lemma join_lines_cons2 (l l' : string) (ls : list string) :
  join_lines (l :: l' :: ls) = l ++ String LF (join_lines (l' :: ls)).
Proof. reflexivity. Qed.

Lemma join_split_lines (s : string) : join_lines (split_lines s) = s.
Proof.
  induction s as [|c s IH]; [reflexivity|].
  cbn [split_lines].
  destruct (Ascii.eqb_spec c LF) as [->|Hc].
  - destruct (split_lines s) as [|l ls] eqn:E;
      [now destruct (split_lines_not_nil s)|].
    rewrite join_lines_cons2, IH. reflexivity.
  - destruct (split_lines s) as [|l ls] eqn:E;
      [now destruct (split_lines_not_nil s)|].
    destruct ls as [|l' ls].
    + cbn in *. now rewrite IH.
    + rewrite join_lines_cons2. rewrite join_lines_cons2 in IH.
      cbn [append]. now rewrite IH.
Qed.

Lemma split_lines_line (l : string) :
  single_line l -> split_lines l = [l].
Proof.
  induction l as [|c l IH]; intros H; [reflexivity|].
  apply single_line_cons in H as [Hc Hl]. cbn.
  apply Ascii.eqb_neq in Hc. rewrite Hc, (IH Hl). reflexivity.
Qed.

Lemma split_lines_append (l rest : string) :
  single_line l ->
  split_lines (l ++ String LF rest) = l :: split_lines rest.
Proof.
  induction l as [|c l IH]; intros H.
  - reflexivity.
  - apply single_line_cons in H as [Hc Hl]. cbn.
    apply Ascii.eqb_neq in Hc. rewrite Hc.
    now rewrite (IH Hl).
Qed.

Lemma split_join_lines (ls : list string) :
  ls <> [] -> Forall single_line ls -> split_lines (join_lines ls) = ls.
Proof.
  induction ls as [|l ls IH]; intros Hne Hall; [contradiction|].
  inversion Hall as [|? ? Hl Hls]; subst.
  destruct ls as [|l' ls].
  - cbn. now apply split_lines_line.
  - rewrite join_lines_cons2, split_lines_append by assumption.
    f_equal. apply IH; [discriminate | assumption].
Qed.

Lemma length_split_lines (s : string) :
  List.length (split_lines s) = S (count_LF s).
Proof.
  induction s as [|c s IH]; [reflexivity|].
  cbn. destruct (Ascii.eqb c LF); cbn; [now rewrite IH|].
  destruct (split_lines s) as [|l ls] eqn:E;
    [now destruct (split_lines_not_nil s)|].
  cbn in *. exact IH.
Qed.

(** *** The rule on one line, by cases on its first characters *)

Lemma rewrite_line_cases (l : string) :
  rewrite_line l =
  match l with
  | String c1 (String c2 t) =>
      if is_token c1 c2 then
        match t with
        | EmptyString => replacement c1
        | String c3 t' => if Ascii.eqb c3 SP then replacement c1 ++ t' else l
        end
      else l
  | _ => l
  end.
Proof.
  unfold rewrite_line, token_matches, span_length, token_replacement,
    is_token, replacement, SP.
  destruct l as [|c1 [|c2 [|c3 t]]]; cbn.
  - reflexivity.
  - ascii_cases; reflexivity.
  - ascii_cases; try reflexivity; congruence.
  - ascii_cases; try reflexivity; congruence.
Qed.

Lemma scan_false_line (l rest : string) :
  single_line l -> scan false (l ++ rest) = l ++ scan false rest.
Proof.
  induction l as [|c l IH]; intros H; [reflexivity|].
  apply single_line_cons in H as [Hc Hl].
  cbn [append]. rewrite scan_copy.
  apply Ascii.eqb_neq in Hc. rewrite Hc, (IH Hl). reflexivity.
Qed.

Lemma scan_true_LF (rest : string) :
  scan true (String LF rest) = scan false (String LF rest).
Proof. destruct rest; reflexivity. Qed.

Lemma scan_true_cons2 (c1 c2 : ascii) (t2 : string) :
  scan true (String c1 (String c2 t2)) =
  if is_token c1 c2 then
    match t2 with
    | EmptyString => replacement c1
    | String c3 t3 =>
        if Ascii.eqb c3 SP then replacement c1 ++ scan false t3
        else if Ascii.eqb c3 LF
             then replacement c1 ++ String c3 (scan true t3)
             else String c1 (scan (Ascii.eqb c1 LF) (String c2 t2))
    end
  else String c1 (scan (Ascii.eqb c1 LF) (String c2 t2)).
Proof. reflexivity. Qed.

Lemma is_token_LF (c1 : ascii) : is_token c1 LF = false.
Proof.
  destruct (is_token c1 LF) eqn:E; [|reflexivity].
  apply token_not_LF in E. now rewrite Ascii.eqb_refl in E.
Qed.

(** A line that is copied: the scan from a line start agrees with the scan
    from inside a line. *)
Lemma scan_true_copy (c1 : ascii) (l' rest : string) :
  c1 <> LF -> single_line l' ->
  String c1 (scan (Ascii.eqb c1 LF) (l' ++ rest))
  = String c1 l' ++ scan false rest.
Proof.
  intros Hc Hl. apply Ascii.eqb_neq in Hc. rewrite Hc.
  now rewrite scan_false_line.
Qed.

Lemma scan_true_line (l rest : string) :
  single_line l -> at_eol rest = true ->
  scan true (l ++ rest) = rewrite_line l ++ scan false rest.
Proof.
  intros Hl Hr. rewrite rewrite_line_cases.
  destruct l as [|c1 l1].
  { destruct rest as [|c r]; [reflexivity|].
    cbn in Hr. apply Ascii.eqb_eq in Hr. subst c. apply scan_true_LF. }
  apply single_line_cons in Hl as [Hc1 Hl1].
  destruct l1 as [|c2 l2].
  { destruct rest as [|c r]; [reflexivity|].
    cbn in Hr. apply Ascii.eqb_eq in Hr. subst c.
    cbn [append]. rewrite scan_true_cons2, is_token_LF.
    now apply (scan_true_copy c1 "" (String LF r)). }
  pose proof Hl1 as Hl1'.
  apply single_line_cons in Hl1 as [Hc2 Hl2].
  cbn [append]. rewrite scan_true_cons2.
  destruct (is_token c1 c2) eqn:Ht.
  2:{ now apply (scan_true_copy c1 (String c2 l2) rest). }
  destruct l2 as [|c3 l3].
  { destruct rest as [|c r]; cbn [append].
    - now rewrite append_nil_r.
    - cbn in Hr. apply Ascii.eqb_eq in Hr. subst c.
      rewrite scan_copy. reflexivity. }
  apply single_line_cons in Hl2 as [Hc3 Hl3].
  cbn [append].
  destruct (Ascii.eqb_spec c3 SP) as [->|Hsp].
  { rewrite scan_false_line by assumption. now rewrite append_assoc. }
  apply Ascii.eqb_neq in Hc3. rewrite Hc3.
  now apply (scan_true_copy c1 (String c2 (String c3 l3)) rest).
Qed.

Lemma scan_join_lines (ls : list string) :
  Forall single_line ls ->
  scan true (join_lines ls) = join_lines (map rewrite_line ls).
Proof.
  induction ls as [|l ls IH]; intros Hall; [reflexivity|].
  inversion Hall as [|? ? Hl Hls]; subst.
  destruct ls as [|l' ls].
  - cbn. rewrite <- (append_nil_r l) at 1.
    rewrite scan_true_line by (assumption || reflexivity).
    apply append_nil_r.
  - cbn [map]. rewrite !join_lines_cons2.
    rewrite scan_true_line by (assumption || reflexivity).
    rewrite scan_copy, Ascii.eqb_refl. f_equal. f_equal.
    apply (IH Hls).
Qed.

(** The filter is the line-by-line implementation. *)
Lemma remove_code_promt_lines (text : string) :
  remove_code_promt text = Ok (remove_prompts_by_line text).
Proof.
  rewrite remove_code_promt_scan. unfold remove_prompts_by_line.
  rewrite <- (join_split_lines text) at 1.
  now rewrite (scan_join_lines _ (split_lines_single text)).
Qed.

(** *** What the rule does to a line *)

Lemma replacement_single (c : ascii) : single_line (replacement c).
Proof. unfold replacement. destruct (Ascii.eqb c "="); reflexivity. Qed.

Lemma rewrite_line_single (l : string) :
  single_line l -> single_line (rewrite_line l).
Proof.
  intros Hl. rewrite rewrite_line_cases.
  destruct l as [|c1 [|c2 [|c3 t]]]; try assumption.
  - destruct (is_token c1 c2); [apply replacement_single | assumption].
  - destruct (is_token c1 c2); [|assumption].
    destruct (Ascii.eqb c3 SP); [|assumption].
    apply single_line_append. split; [apply replacement_single|].
    now repeat (apply single_line_cons in Hl as [_ Hl]).
Qed.

Lemma map_rewrite_single (ls : list string) :
  Forall single_line ls -> Forall single_line (map rewrite_line ls).
Proof.
  induction 1; cbn; constructor; auto using rewrite_line_single.
Qed.

(** The lines of the output are the rewritten lines of the input. *)
Lemma split_lines_by_line (text : string) :
  split_lines (remove_prompts_by_line text)
  = map rewrite_line (split_lines text).
Proof.
  unfold remove_prompts_by_line. apply split_join_lines.
  - pose proof (split_lines_not_nil text).
    destruct (split_lines text); [contradiction | discriminate].
  - apply map_rewrite_single, split_lines_single.
Qed.

Lemma nth_line_rewritten (text : string) (i : nat) (l : string) :
  nth_error (split_lines text) i = Some l ->
  exists out, remove_code_promt text = Ok out
              /\ nth_error (split_lines out) i = Some (rewrite_line l).
Proof.
  intros H. exists (remove_prompts_by_line text). split.
  - apply remove_code_promt_lines.
  - rewrite split_lines_by_line. now apply map_nth_error.
Qed.

Lemma length_drop (n : nat) (s : string) :
  String.length (drop n s) = String.length s - n.
Proof.
  revert s. induction n as [|n IH]; intros [|c s]; cbn; auto.
Qed.

Lemma starts_with_prompt_cases (l : string) :
  starts_with_prompt l =
  match l with
  | String c1 (String c2 t) =>
      is_token c1 c2 &&
      match t with
      | EmptyString => true
      | String c3 _ => Ascii.eqb c3 SP
      end
  | _ => false
  end.
Proof.
  unfold starts_with_prompt, token_matches, is_token, SP.
  destruct l as [|c1 [|c2 [|c3 t]]]; cbn.
  - reflexivity.
  - ascii_cases; reflexivity.
  - ascii_cases; try reflexivity; congruence.
  - ascii_cases; try reflexivity; congruence.
Qed.

Lemma rewrite_line_length (l : string) :
  starts_with_prompt l = true ->
  String.length (rewrite_line l) <> String.length l.
Proof.
  rewrite rewrite_line_cases, starts_with_prompt_cases.
  destruct l as [|c1 [|c2 [|c3 t]]]; try discriminate.
  - intros H. apply andb_prop in H as [-> _].
    unfold replacement. destruct (Ascii.eqb c1 "="); cbn; lia.
  - intros H. apply andb_prop in H as [-> ->].
    rewrite length_append. unfold replacement.
    destruct (Ascii.eqb c1 "="); cbn; lia.
Qed.

(** A line is left as it is exactly when it carries no prompt. *)
Lemma rewrite_line_fixed (l : string) :
  rewrite_line l = l <-> starts_with_prompt l = false.
Proof.
  split.
  - intros H. destruct (starts_with_prompt l) eqn:E; [|reflexivity].
    apply rewrite_line_length in E. now rewrite H in E.
  - rewrite rewrite_line_cases, starts_with_prompt_cases.
    destruct l as [|c1 [|c2 [|c3 t]]]; try reflexivity.
    + destruct (is_token c1 c2); [discriminate | reflexivity].
    + destruct (is_token c1 c2); [|reflexivity].
      destruct (Ascii.eqb c3 SP); [discriminate | reflexivity].
Qed.

(** After the rule has run, a line still carries a prompt exactly when the
    prompt it lost was followed by another one. *)
Lemma prompt_after_rewrite (l : string) :
  starts_with_prompt (rewrite_line l) = nested_prompt l.
Proof.
  unfold nested_prompt. rewrite rewrite_line_cases.
  destruct l as [|c1 [|c2 [|c3 t]]]; try reflexivity.
  - cbn [startswith orb andb]. rewrite starts_with_prompt_cases.
    now rewrite !andb_false_r.
  - cbn [startswith orb andb]. rewrite !andb_false_r. cbn [orb andb].
    destruct (is_token c1 c2) eqn:Ht.
    + unfold replacement. destruct (Ascii.eqb c1 "="); reflexivity.
    + rewrite starts_with_prompt_cases. now rewrite Ht.
  - cbn [drop].
    destruct (is_token c1 c2 && Ascii.eqb c3 SP) eqn:E.
    + apply andb_prop in E as [Ht Hsp]. rewrite Ht, Hsp.
      apply Ascii.eqb_eq in Hsp. subst c3.
      unfold replacement.
      destruct (Ascii.eqb_spec c1 "=") as [->|Hne].
      * rewrite starts_with_prompt_cases. reflexivity.
      * cbn [append]. generalize (starts_with_prompt t) as b. intros b.
        revert Ht. unfold is_token, SP.
        ascii_cases; intros; try discriminate; try congruence;
          reflexivity.
    + assert (Hfix : starts_with_prompt (String c1 (String c2 (String c3 t)))
                     = false).
      { rewrite starts_with_prompt_cases. exact E. }
      assert (Hrw : (if is_token c1 c2
                     then if Ascii.eqb c3 SP
                          then replacement c1 ++ t
                          else String c1 (String c2 (String c3 t))
                     else String c1 (String c2 (String c3 t)))
                    = String c1 (String c2 (String c3 t))).
      { destruct (is_token c1 c2); [|reflexivity].
        destruct (Ascii.eqb c3 SP); [discriminate | reflexivity]. }
      rewrite Hrw, Hfix.
      generalize (starts_with_prompt t) as b. intros b.
      revert E. unfold is_token, SP.
      ascii_cases; intros; try discriminate; try congruence;
        reflexivity.
Qed.

(** Running the rule a second time changes a line exactly when the line
    has a nested prompt. *)
Lemma rewrite_line_twice (l : string) :
  rewrite_line (rewrite_line l) = rewrite_line l <-> nested_prompt l = false.
Proof. now rewrite rewrite_line_fixed, prompt_after_rewrite. Qed.

Lemma remove_code_promt_twice_lines (x : string) :
  remove_code_promt_twice x
  = Ok (join_lines (map rewrite_line (map rewrite_line (split_lines x)))).
Proof.
  unfold remove_code_promt_twice.
  rewrite remove_code_promt_lines. cbn [bind].
  rewrite remove_code_promt_lines. unfold remove_prompts_by_line at 1.
  now rewrite split_lines_by_line.
Qed.

Lemma count_LF_by_line (text : string) :
  count_LF (remove_prompts_by_line text) = count_LF text.
Proof.
  pose proof (length_split_lines (remove_prompts_by_line text)) as H.
  rewrite split_lines_by_line, length_map, length_split_lines in H.
  congruence.
Qed.

(** *** Every match of the pattern *)

Lemma match_here_span (prev : option ascii) (s : string) (m : Match) :
  match_here BYEXMAPLE_PROMT_RE prev s = Some m ->
  at_bol prev = true
  /\ startswith (m_text m) s = true
  /\ 2 <= String.length (m_text m) <= 3.
Proof.
  rewrite match_here_prompt. unfold prompt_here.
  destruct (at_bol prev); [|discriminate].
  destruct s as [|c1 [|c2 t]]; try discriminate.
  destruct (is_token c1 c2); [|discriminate].
  destruct t as [|c3 t].
  - intros [= <-]. cbn. rewrite !Ascii.eqb_refl. repeat split; lia.
  - destruct (Ascii.eqb_spec c3 SP) as [->|_].
    + intros [= <-]. cbn. rewrite !Ascii.eqb_refl. repeat split; lia.
    + destruct (Ascii.eqb c3 LF); [|discriminate].
      intros [= <-]. cbn. rewrite !Ascii.eqb_refl. repeat split; lia.
Qed.

Lemma map_rewrite_twice (ls : list string) :
  map rewrite_line (map rewrite_line ls) = map rewrite_line ls
  <-> Forall (fun l => nested_prompt l = false) ls.
Proof.
  induction ls as [|l ls IH]; cbn.
  - split; [constructor | reflexivity].
  - split.
    + intros [= Hl Hls]. constructor.
      * now apply rewrite_line_twice.
      * now apply IH.
    + intros H. inversion H as [|? ? Hl Hls]; subst.
      apply rewrite_line_twice in Hl. apply IH in Hls. congruence.
Qed.

Lemma map_rewrite_not_nil (text : string) :
  map rewrite_line (split_lines text) <> [].
Proof.
  pose proof (split_lines_not_nil text).
  destruct (split_lines text); [contradiction | discriminate].
Qed.

(** ** The filter's contract *)

(** C1: a line that starts with [=>] followed by one space, or that is
    [=>] alone, comes out with that span replaced by the four characters
    [#=> ], the space included in both cases; so ["=> 42\n"] gives
    ["#=> 42\n"] and ["=>\n"] gives ["#=> \n"]. *)
Theorem expected_output_marker_rewritten :
  (forall (text : string) (i : nat) (rest : string),
      nth_error (split_lines text) i = Some ("=> " ++ rest) ->
      exists out, remove_code_promt text = Ok out
                  /\ nth_error (split_lines out) i = Some ("#=> " ++ rest))
  /\ (forall (text : string) (i : nat),
      nth_error (split_lines text) i = Some "=>" ->
      exists out, remove_code_promt text = Ok out
                  /\ nth_error (split_lines out) i = Some "#=> ")
  /\ remove_code_promt ("=> 42" ++ eol) = Ok ("#=> 42" ++ eol)
  /\ remove_code_promt ("=>" ++ eol) = Ok ("#=> " ++ eol).
Proof.
  repeat split; try reflexivity.
  - intros text i rest H. exact (nth_line_rewritten text i _ H).
  - intros text i H. exact (nth_line_rewritten text i _ H).
Qed.

Lemma expected_output_marker_rewritten_witness :
  exists out,
    remove_code_promt ("a = 1" ++ eol ++ "=> 1" ++ eol ++ "b") = Ok out
    /\ nth_error (split_lines out) 1 = Some "#=> 1".
Proof.
  apply (proj1 expected_output_marker_rewritten
           ("a = 1" ++ eol ++ "=> 1" ++ eol ++ "b") 1 "1").
  reflexivity.
Defined.

(** C2: a line that starts with [>>] or [..] followed by one space, or
    that is the token alone, comes out without that span and otherwise
    unchanged; only one space goes, so [">> print(1)\n"] gives
    ["print(1)\n"] and ["..   more\n"] gives ["  more\n"]. *)
Theorem prompt_marker_deleted :
  (forall (text : string) (i : nat) (tok rest : string),
      tok = ">>" \/ tok = ".." ->
      nth_error (split_lines text) i = Some (tok ++ " " ++ rest) ->
      exists out, remove_code_promt text = Ok out
                  /\ nth_error (split_lines out) i = Some rest)
  /\ (forall (text : string) (i : nat) (tok : string),
      tok = ">>" \/ tok = ".." ->
      nth_error (split_lines text) i = Some tok ->
      exists out, remove_code_promt text = Ok out
                  /\ nth_error (split_lines out) i = Some "")
  /\ remove_code_promt (">> print(1)" ++ eol) = Ok ("print(1)" ++ eol)
  /\ remove_code_promt ("..   more" ++ eol) = Ok ("  more" ++ eol).
Proof.
  repeat split; try reflexivity.
  - intros text i tok rest [-> | ->] H;
      exact (nth_line_rewritten text i _ H).
  - intros text i tok [-> | ->] H;
      exact (nth_line_rewritten text i _ H).
Qed.

Lemma prompt_marker_deleted_witness :
  exists out,
    remove_code_promt (">> x = [" ++ eol ++ "..   1]" ++ eol) = Ok out
    /\ nth_error (split_lines out) 1 = Some "  1]".
Proof.
  apply (proj1 prompt_marker_deleted
           (">> x = [" ++ eol ++ "..   1]" ++ eol) 1 ".." "  1]").
  - right. reflexivity.
  - reflexivity.
Defined.

(** C3 as stated fails: on [">> >> x"] the first run gives [">> x"] and
    the second gives ["x"]. *)
Lemma second_run_strips_nested_prompt :
  remove_code_promt ">> >> x" = Ok ">> x"
  /\ remove_code_promt_twice ">> >> x" = Ok "x"
  /\ remove_code_promt_twice ">> >> x" <> remove_code_promt ">> >> x".
Proof. repeat split; try reflexivity. discriminate. Qed.

(** C3, amended: running the filter on its own output changes nothing
    exactly for the texts in which no line has a deleted prompt ([>>] or
    [..] with its space) directly followed by another prompt; a rewritten
    [#=> ] line never carries a prompt again. *)
Theorem second_run_idempotent_iff :
  (forall x : string,
      remove_code_promt_twice x = remove_code_promt x
      <-> Forall (fun l => nested_prompt l = false) (split_lines x))
  /\ (forall rest : string, starts_with_prompt ("#=> " ++ rest) = false).
Proof.
  split.
  - intros x.
    rewrite remove_code_promt_twice_lines, remove_code_promt_lines.
    unfold remove_prompts_by_line.
    rewrite <- map_rewrite_twice. split.
    + intros [= H]. apply (f_equal split_lines) in H.
      rewrite !split_join_lines in H;
        auto using map_rewrite_single, split_lines_single,
          map_rewrite_not_nil.
      intros E. apply map_eq_nil in E. now apply map_rewrite_not_nil in E.
    + intros ->. reflexivity.
  - intros rest. rewrite starts_with_prompt_cases. reflexivity.
Qed.

Lemma second_run_idempotent_iff_witness :
  remove_code_promt_twice ("=> 1" ++ eol ++ ">> a")
  = remove_code_promt ("=> 1" ++ eol ++ ">> a").
Proof.
  apply (proj1 second_run_idempotent_iff ("=> 1" ++ eol ++ ">> a")).
  repeat constructor.
Defined.

(** C4: a text in which no line starts with [>>], [..] or [=>] followed
    by a space or by the end of the line comes out unchanged; a token in
    the middle of a line (["x >> y\n"]) or at the start of a longer word
    ([">>>rest"]) does not count. *)
Theorem no_prompt_identity :
  (forall text : string,
      Forall (fun l => starts_with_prompt l = false) (split_lines text) ->
      remove_code_promt text = Ok text)
  /\ remove_code_promt ("x >> y" ++ eol) = Ok ("x >> y" ++ eol)
  /\ remove_code_promt ">>>rest" = Ok ">>>rest".
Proof.
  repeat split; try reflexivity.
  intros text H. rewrite remove_code_promt_lines.
  unfold remove_prompts_by_line.
  rewrite <- (join_split_lines text) at 2. do 2 f_equal.
  induction H as [|l ls Hl _ IH]; [reflexivity|].
  cbn. apply rewrite_line_fixed in Hl. congruence.
Qed.

Lemma no_prompt_identity_witness :
  remove_code_promt ("no prompt here" ++ eol)
  = Ok ("no prompt here" ++ eol).
Proof.
  apply (proj1 no_prompt_identity ("no prompt here" ++ eol)).
  repeat constructor.
Defined.

(** C5: the one-pass multiline substitution gives, on every text, what the
    line-by-line implementation gives (split at line feeds, apply the rule
    to the start of each line, rejoin); every match starts at a line
    boundary and consumes two or three characters of the text, so matches
    cannot overlap. *)
Theorem substitution_is_line_by_line :
  (forall text : string,
      remove_code_promt text
      = Ok (join_lines (map rewrite_line (split_lines text))))
  /\ (forall (prev : option ascii) (s : string) (m : Match),
      match_here BYEXMAPLE_PROMT_RE prev s = Some m ->
      (prev = None \/ prev = Some LF)
      /\ startswith (m_text m) s = true
      /\ 2 <= String.length (m_text m) <= 3).
Proof.
  split.
  - exact remove_code_promt_lines.
  - intros prev s m H. apply match_here_span in H as (Hb & Hp & Hlen).
    repeat split; try assumption; try lia.
    destruct prev as [c|]; [right | now left].
    cbn in Hb. apply Ascii.eqb_eq in Hb. now subst.
Qed.

Lemma substitution_is_line_by_line_witness :
  (@None ascii = None \/ None = Some LF)
  /\ startswith ">> " (">> a" ++ eol ++ ">> b") = true
  /\ 2 <= String.length ">> " <= 3.
Proof.
  apply (proj2 substitution_is_line_by_line
           None (">> a" ++ eol ++ ">> b")
           (mkMatch ">> " [(2, " "); (1, ">>")] 2)).
  reflexivity.
Defined.

(** C6: the filter returns a string for every input string and raises
    nothing; the replacement callback never asks for a group the pattern
    does not have. *)
Theorem remove_code_promt_total :
  forall text : string, exists out : string, remove_code_promt text = Ok out.
Proof.
  intros text. exists (scan true text). apply remove_code_promt_scan.
Qed.

(** C7: the end-of-line alternative of the pattern holds only at the end
    of the text or before a line feed; a carriage return after the token is
    line content, so a line with the token followed by a carriage return,
    as in [">>\r\n"], is left unchanged. *)
Theorem carriage_return_is_no_end_of_line :
  (forall (prev : option ascii) (tok rest : string),
      In tok tokens -> at_bol prev = true ->
      (exists m, match_here BYEXMAPLE_PROMT_RE prev (tok ++ rest) = Some m
                 /\ m_text m = tok)
      <-> (rest = "" \/ exists r, rest = String LF r))
  /\ (forall (text : string) (i : nat) (tok rest : string),
      In tok tokens ->
      nth_error (split_lines text) i = Some (tok ++ String CR rest) ->
      exists out, remove_code_promt text = Ok out
                  /\ nth_error (split_lines out) i
                     = Some (tok ++ String CR rest))
  /\ remove_code_promt (">>" ++ String CR eol) = Ok (">>" ++ String CR eol).
Proof.
  split; [|split; [|reflexivity]].
  - intros prev tok rest Htok Hbol.
    rewrite match_here_prompt. unfold prompt_here. rewrite Hbol.
    split.
    + intros (m & Hm & Htxt). revert Hm.
      destruct Htok as [<- | [<- | [<- | []]]]; cbn [append is_token];
        (destruct rest as [|c r]; [now left|]);
        cbn; (destruct (Ascii.eqb_spec c SP) as [->|_];
              [intros [= <-]; discriminate|]);
        (destruct (Ascii.eqb_spec c LF) as [->|_]; [|discriminate]);
        right; now exists r.
    + destruct Htok as [<- | [<- | [<- | []]]];
        (intros [-> | [r ->]]; cbn; eexists; split; reflexivity).
  - intros text i tok rest Htok H.
    destruct (nth_line_rewritten text i _ H) as (out & Hout & Hline).
    exists out. split; [assumption|]. rewrite Hline. f_equal.
    destruct Htok as [<- | [<- | [<- | []]]]; reflexivity.
Qed.

Lemma carriage_return_is_no_end_of_line_witness :
  exists out,
    remove_code_promt (">>" ++ String CR eol ++ ".. x") = Ok out
    /\ nth_error (split_lines out) 0 = Some (">>" ++ String CR "").
Proof.
  apply (proj1 (proj2 carriage_return_is_no_end_of_line)
           (">>" ++ String CR eol ++ ".. x") 0 ">>" "").
  - left. reflexivity.
  - reflexivity.
Defined.

(** C9: the output has as many line feeds as the input; no replacement
    adds or removes one. *)
Theorem line_feeds_preserved :
  forall text : string,
    exists out : string,
      remove_code_promt text = Ok out /\ count_LF out = count_LF text.
Proof.
  intros text. exists (remove_prompts_by_line text). split.
  - apply remove_code_promt_lines.
  - apply count_LF_by_line.
Qed.

(** C10: the empty text comes out empty. *)
Theorem remove_code_promt_empty : remove_code_promt "" = Ok "".
Proof. reflexivity. Qed.

(** ** Further properties of the module *)

(** *** The callback and the groups of a pattern *)

Lemma match_here_ngroups (r : regex) (prev : option ascii) (s : string)
    (m : Match) :
  match_here r prev s = Some m -> m_ngroups m = ngroups r.
Proof.
  unfold match_here. destruct (paths r prev s []); [discriminate|].
  now intros [= <-].
Qed.

Lemma byexample_repl_ok (m : Match) :
  1 <= m_ngroups m -> exists out, byexample_repl m = Ok out.
Proof.
  intros H. unfold byexample_repl, group.
  destruct (Nat.leb_spec 1 (m_ngroups m)) as [_|Hlt]; [|lia].
  cbn [bind]. destruct (opt_string_eqb _ _); eauto.
Qed.

Lemma match_advancing_ngroups (r : regex) (prev : option ascii) (s : string)
    (m : Match) :
  match_advancing r prev s = Some m -> m_ngroups m = ngroups r.
Proof.
  unfold match_advancing. destruct (filter _ _); [discriminate|].
  now intros [= <-].
Qed.

(** The substitution raises only if the callback does. *)
Lemma sub_loop_ok (r : regex) (repl : Match -> result string) :
  (forall m, m_ngroups m = ngroups r -> exists out, repl m = Ok out) ->
  forall (s : string) (skip : nat) (prev : option ascii),
    exists out, sub_loop r repl skip prev s = Ok out.
Proof.
  intros Hrepl.
  assert (Hstep : forall (s : string) (prev : option ascii),
             (forall consumed,
                 exists out,
                   match s with
                   | EmptyString => Ok ""
                   | String c s' =>
                       match consumed with
                       | Some k => sub_loop r repl k (Some c) s'
                       | None => t <- sub_loop r repl 0 (Some c) s' ;;
                                 Ok (String c t)
                       end
                   end = Ok out) ->
             exists out, sub_loop r repl 0 prev s = Ok out).
  { intros s prev Hres. rewrite sub_loop_0. cbv beta zeta.
    destruct (match_here r prev s) as [m|] eqn:E; [|exact (Hres None)].
    apply match_here_ngroups in E.
    destruct (Hrepl m E) as [piece ->]. cbn [bind].
    destruct (String.length (m_text m)) as [|k].
    - destruct (match_advancing r prev s) as [m'|] eqn:E'.
      + apply match_advancing_ngroups in E'.
        destruct (Hrepl m' E') as [piece' ->]. cbn [bind].
        destruct (Hres (Some (Nat.pred (String.length (m_text m')))))
          as [t ->].
        cbn. eauto.
      + destruct (Hres None) as [t ->]. cbn. eauto.
    - destruct (Hres (Some k)) as [t ->]. cbn. eauto. }
  induction s as [|c s IH]; intros [|k] prev.
  - apply Hstep. intros _. eauto.
  - cbn. eauto.
  - apply Hstep. intros [k|].
    + apply IH.
    + destruct (IH 0 (Some c)) as [t ->]. cbn. eauto.
  - rewrite sub_loop_S. apply IH.
Qed.

(** X1: [byexample_repl] asks for group 1 only, so as the callback of a
    substitution it never raises with a pattern that has at least one
    group, whatever that pattern is among those written with literal
    characters, [^] and [$] under [re.M], concatenation, alternation and
    capturing groups: the substitution returns a string for every text,
    empty matches and the matches found after them included. *)
Theorem byexample_repl_safe_with_a_group :
  forall (r : regex) (text : string),
    1 <= ngroups r ->
    exists out, sub r byexample_repl text = Ok out.
Proof.
  intros r text H. unfold sub. apply sub_loop_ok.
  intros m Hm. apply byexample_repl_ok. lia.
Qed.

Lemma byexample_repl_safe_with_a_group_witness :
  exists out,
    sub (Group 1 (Alt Bol (Cat (Lit "=") (Lit ">")))) byexample_repl
        ("=>" ++ eol ++ "=> 1")
    = Ok out.
Proof.
  apply (byexample_repl_safe_with_a_group
           (Group 1 (Alt Bol (Cat (Lit "=") (Lit ">"))))
           ("=>" ++ eol ++ "=> 1")).
  cbn. lia.
Defined.

(** With the pattern [(^|=>)] the engine reports the empty match at the
    line start first and then, at the same position, the match of [=>]:
    the callback runs on both. *)
Lemma sub_after_empty_match :
  sub (Group 1 (Alt Bol (Cat (Lit "=") (Lit ">")))) byexample_repl "=>"
  = Ok "#=> ".
Proof. reflexivity. Qed.

(** X2: with a pattern that has no group, [matchobj.group(1)] raises
    [IndexError] at the first match, and the substitution raises with it. *)
Theorem byexample_repl_raises_without_group :
  forall (r : regex) (text : string) (m : Match),
    ngroups r = 0 ->
    match_here r None text = Some m ->
    byexample_repl m = Raise IndexError
    /\ sub r byexample_repl text = Raise IndexError.
Proof.
  intros r text m Hr Hm.
  assert (Hrepl : byexample_repl m = Raise IndexError).
  { unfold byexample_repl, group.
    rewrite (match_here_ngroups _ _ _ _ Hm), Hr. reflexivity. }
  split; [assumption|].
  unfold sub. rewrite sub_loop_0, Hm, Hrepl. reflexivity.
Qed.

Lemma byexample_repl_raises_without_group_witness :
  byexample_repl (mkMatch ">>" [] 0) = Raise IndexError
  /\ sub (Cat (Lit ">") (Lit ">")) byexample_repl ">> x" = Raise IndexError.
Proof.
  apply (byexample_repl_raises_without_group
           (Cat (Lit ">") (Lit ">")) ">> x" (mkMatch ">>" [] 0));
    reflexivity.
Defined.

(** X3: every match of [BYEXMAPLE_PROMT_RE] sets both groups: group 1 is
    one of the three tokens, group 2 is the space or empty, the whole match
    is group 1 followed by group 2, and [byexample_repl] answers by group 1
    alone. *)
Theorem match_groups_of_pattern :
  forall (prev : option ascii) (s : string) (m : Match),
    match_here BYEXMAPLE_PROMT_RE prev s = Some m ->
    exists tok d : string,
      In tok tokens /\ (d = " " \/ d = "")
      /\ group m 1 = Ok (Some tok)
      /\ group m 2 = Ok (Some d)
      /\ group m 0 = Ok (Some (tok ++ d))
      /\ byexample_repl m = Ok (token_replacement tok).
Proof.
  intros prev s m. rewrite match_here_prompt. unfold prompt_here.
  destruct (at_bol prev); [|discriminate].
  destruct s as [|c1 [|c2 t]]; try discriminate.
  destruct (is_token c1 c2) eqn:Ht; [|discriminate].
  assert (Htok : In (String c1 (String c2 "")) tokens
                 /\ replacement c1
                    = token_replacement (String c1 (String c2 ""))).
  { revert Ht. unfold is_token, tokens, replacement, token_replacement.
    cbn. ascii_cases; intros; try discriminate; split; auto. }
  destruct Htok as [Hin Hrep].
  assert (Hcase : m = mkMatch (String c1 (String c2 "") ++ " ")
                        [(2, " "); (1, String c1 (String c2 ""))] 2
                  \/ m = mkMatch (String c1 (String c2 ""))
                        [(2, ""); (1, String c1 (String c2 ""))] 2 ->
          exists tok d : string,
            In tok tokens /\ (d = " " \/ d = "")
            /\ group m 1 = Ok (Some tok)
            /\ group m 2 = Ok (Some d)
            /\ group m 0 = Ok (Some (tok ++ d))
            /\ byexample_repl m = Ok (token_replacement tok)).
  { intros [-> | ->].
    - exists (String c1 (String c2 "")), " "%string.
      rewrite byexample_repl_token, Hrep by assumption.
      repeat split; auto.
    - exists (String c1 (String c2 "")), "".
      rewrite byexample_repl_token, Hrep by assumption.
      repeat split; auto. }
  destruct t as [|c3 t].
  - intros [= <-]. apply Hcase. now right.
  - destruct (Ascii.eqb c3 SP).
    + intros [= <-]. apply Hcase. now left.
    + destruct (Ascii.eqb c3 LF); [|discriminate].
      intros [= <-]. apply Hcase. now right.
Qed.

Lemma match_groups_of_pattern_witness :
  exists tok d : string,
    In tok tokens /\ (d = " " \/ d = "")
    /\ group (mkMatch "=>" [(2, ""); (1, "=>")] 2) 1 = Ok (Some tok)
    /\ group (mkMatch "=>" [(2, ""); (1, "=>")] 2) 2 = Ok (Some d)
    /\ group (mkMatch "=>" [(2, ""); (1, "=>")] 2) 0 = Ok (Some (tok ++ d))
    /\ byexample_repl (mkMatch "=>" [(2, ""); (1, "=>")] 2)
       = Ok (token_replacement tok).
Proof.
  apply (match_groups_of_pattern (Some LF) ("=>" ++ eol ++ "1")
           (mkMatch "=>" [(2, ""); (1, "=>")] 2)).
  reflexivity.
Defined.

(** *** Texts put together line by line *)

Lemma join_lines_app (ls1 ls2 : list string) :
  ls1 <> [] -> ls2 <> [] ->
  join_lines (ls1 ++ ls2)%list
  = join_lines ls1 ++ String LF (join_lines ls2).
Proof.
  intros H1 H2. induction ls1 as [|l ls1 IH]; [contradiction|].
  destruct ls1 as [|l' ls1].
  - destruct ls2 as [|k ls2]; [contradiction|]. reflexivity.
  - change (join_lines ((l :: l' :: ls1) ++ ls2)%list)
      with (join_lines (l :: (l' :: ls1) ++ ls2)%list).
    cbn [app]. rewrite !join_lines_cons2.
    change (l' :: (ls1 ++ ls2)%list) with ((l' :: ls1) ++ ls2)%list.
    rewrite IH by discriminate. now rewrite append_assoc.
Qed.

Lemma by_line_append (a b : string) :
  remove_prompts_by_line (a ++ String LF b)
  = remove_prompts_by_line a ++ String LF (remove_prompts_by_line b).
Proof.
  unfold remove_prompts_by_line.
  assert (Hsplit : split_lines (a ++ String LF b)
                   = (split_lines a ++ split_lines b)%list).
  { rewrite <- (join_split_lines a) at 1.
    rewrite <- (join_split_lines b) at 1.
    rewrite <- join_lines_app by apply split_lines_not_nil.
    apply split_join_lines.
    - pose proof (split_lines_not_nil a).
      destruct (split_lines a); [contradiction | discriminate].
    - apply Forall_app. split; apply split_lines_single. }
  rewrite Hsplit, map_app.
  apply join_lines_app; apply map_rewrite_not_nil.
Qed.

(** X4: the filter works line by line: the output for two texts put
    together with a line feed between them is the two outputs put together
    with a line feed between them. *)
Theorem filter_distributes_over_line_feed :
  forall a b : string,
    exists a' b' : string,
      remove_code_promt a = Ok a'
      /\ remove_code_promt b = Ok b'
      /\ remove_code_promt (a ++ eol ++ b) = Ok (a' ++ eol ++ b').
Proof.
  intros a b.
  exists (remove_prompts_by_line a), (remove_prompts_by_line b).
  rewrite !remove_code_promt_lines. repeat split.
  f_equal. apply by_line_append.
Qed.

(** *** Reasoning along the scan *)

(** What the scan emits, case by case: a copied character, or a token with
    its delimiter replaced. *)
Lemma scan_cases (P : bool -> string -> string -> Prop) :
  (forall b, P b "" "") ->
  (forall b c t out,
      P (Ascii.eqb c LF) t out -> P b (String c t) (String c out)) ->
  (forall c1 c2,
      is_token c1 c2 = true ->
      P true (String c1 (String c2 "")) (replacement c1)) ->
  (forall c1 c2 t out,
      is_token c1 c2 = true -> P false t out ->
      P true (String c1 (String c2 (String SP t))) (replacement c1 ++ out)) ->
  (forall c1 c2 t out,
      is_token c1 c2 = true -> P true t out ->
      P true (String c1 (String c2 (String LF t)))
        (replacement c1 ++ String LF out)) ->
  forall (s : string) (b : bool), P b s (scan b s).
Proof.
  intros Hnil Hcopy Hend Hsp Hlf s.
  remember (String.length s) as n eqn:Hn.
  assert (Hlen : String.length s <= n) by lia. clear Hn.
  revert s Hlen. induction n as [|n IH]; intros s Hlen b.
  - destruct s; [apply Hnil | cbn in Hlen; lia].
  - destruct s as [|c1 t1]; [apply Hnil|].
    assert (Hc : P b (String c1 t1)
                   (String c1 (scan (Ascii.eqb c1 LF) t1))).
    { apply Hcopy, IH. cbn in Hlen. lia. }
    destruct b; [|exact Hc].
    destruct t1 as [|c2 t2]; [exact Hc|].
    rewrite scan_true_cons2.
    destruct (is_token c1 c2) eqn:Ht; [|exact Hc].
    destruct t2 as [|c3 t3]; [now apply Hend|].
    destruct (Ascii.eqb_spec c3 SP) as [->|_].
    { apply Hsp; [assumption|]. apply IH. cbn in Hlen. lia. }
    destruct (Ascii.eqb_spec c3 LF) as [->|_]; [|exact Hc].
    apply Hlf; [assumption|]. apply IH. cbn in Hlen. lia.
Qed.

Lemma count_char_append (c : ascii) (s t : string) :
  count_char c (s ++ t) = count_char c s + count_char c t.
Proof. induction s as [|a s IH]; cbn; [reflexivity | rewrite IH; lia]. Qed.

Lemma count_char_token (c c1 c2 : ascii) :
  is_token c1 c2 = true -> prompt_char c = false ->
  Ascii.eqb c c1 = false /\ Ascii.eqb c c2 = false
  /\ Ascii.eqb c SP = false /\ count_char c (replacement c1) = 0.
Proof.
  unfold is_token, prompt_char, replacement, SP.
  destruct (Ascii.eqb_spec c c1) as [<-|_];
    destruct (Ascii.eqb_spec c c2) as [<-|_];
    ascii_cases; intros; try discriminate; repeat split; reflexivity.
Qed.

Lemma token_no_LF (c1 c2 : ascii) :
  is_token c1 c2 = true ->
  Ascii.eqb c1 LF = false /\ Ascii.eqb c2 LF = false
  /\ count_LF (replacement c1) = 0.
Proof.
  unfold is_token, replacement, LF.
  ascii_cases; intros; try discriminate; repeat split; reflexivity.
Qed.

(** X5: the filter only ever removes or inserts the characters [>], [.],
    [=], the space and [#]: every other character, the line feed and the
    carriage return among them, occurs in the output as often as in the
    input. *)
Theorem other_characters_kept :
  forall (c : ascii) (text : string),
    prompt_char c = false ->
    exists out, remove_code_promt text = Ok out
                /\ count_char c out = count_char c text.
Proof.
  intros c text Hc. exists (scan true text).
  split; [apply remove_code_promt_scan|].
  apply (scan_cases (fun _ s out => count_char c out = count_char c s)).
  - reflexivity.
  - intros _ a t out IH. cbn. now rewrite IH.
  - intros c1 c2 Ht.
    destruct (count_char_token c c1 c2 Ht Hc) as (H1 & H2 & _ & H0).
    cbn. rewrite H0, H1, H2. reflexivity.
  - intros c1 c2 t out Ht IH.
    destruct (count_char_token c c1 c2 Ht Hc) as (H1 & H2 & H3 & H0).
    rewrite count_char_append, H0, IH. cbn. now rewrite H1, H2, H3.
  - intros c1 c2 t out Ht IH.
    destruct (count_char_token c c1 c2 Ht Hc) as (H1 & H2 & H3 & H0).
    rewrite count_char_append, H0. cbn. now rewrite H1, H2, IH.
Qed.

Lemma other_characters_kept_witness :
  exists out,
    remove_code_promt (">> a" ++ String CR eol ++ "=> a") = Ok out
    /\ count_char CR out
       = count_char CR (">> a" ++ String CR eol ++ "=> a").
Proof.
  apply (other_characters_kept CR (">> a" ++ String CR eol ++ "=> a")).
  reflexivity.
Defined.

(** X6: a replacement takes away at most three characters and adds at most
    two, once per line: with [n] lines the output is at most [3 * n]
    characters shorter and at most [2 * n] characters longer than the
    input. *)
Theorem output_length_bounds :
  forall text : string,
    exists out,
      remove_code_promt text = Ok out
      /\ String.length text
         <= String.length out + 3 * List.length (split_lines text)
      /\ String.length out
         <= String.length text + 2 * List.length (split_lines text).
Proof.
  intros text. exists (scan true text).
  split; [apply remove_code_promt_scan|].
  rewrite length_split_lines.
  assert (H : String.length text
              <= String.length (scan true text) + 3 * (count_LF text + 1)
              /\ String.length (scan true text)
                 <= String.length text + 2 * (count_LF text + 1));
    [|lia].
  apply (scan_cases
           (fun b s out =>
              String.length s
              <= String.length out
                 + 3 * (count_LF s + if b then 1 else 0)
              /\ String.length out
                 <= String.length s
                    + 2 * (count_LF s + if b then 1 else 0))).
  - intros b. cbn. lia.
  - intros b a t out IH. cbn [String.length count_LF].
    destruct (Ascii.eqb a LF), b; lia.
  - intros c1 c2 Ht. unfold replacement.
    destruct (Ascii.eqb c1 "="); cbn; lia.
  - intros c1 c2 t out Ht IH.
    destruct (token_no_LF c1 c2 Ht) as (H1 & H2 & _).
    rewrite length_append. cbn [String.length count_LF].
    rewrite H1, H2. change (Ascii.eqb SP LF) with false.
    unfold replacement. destruct (Ascii.eqb c1 "="); cbn; lia.
  - intros c1 c2 t out Ht IH.
    destruct (token_no_LF c1 c2 Ht) as (H1 & H2 & _).
    rewrite length_append. cbn [String.length count_LF].
    rewrite H1, H2, Ascii.eqb_refl.
    unfold replacement. destruct (Ascii.eqb c1 "="); cbn; lia.
Qed.

(** *** Running the filter again and again *)

Lemma rewrite_line_iter_fixed (n : nat) (l : string) :
  starts_with_prompt l = false -> rewrite_line_iter n l = l.
Proof.
  intros H. induction n as [|n IH]; [reflexivity|].
  cbn. apply rewrite_line_fixed in H. now rewrite H.
Qed.

(** A run on a line with a prompt either leaves a line without prompt or
    a line at least two characters shorter. *)
Lemma rewrite_line_progress (l : string) :
  starts_with_prompt l = true ->
  starts_with_prompt (rewrite_line l) = false
  \/ String.length (rewrite_line l) + 2 <= String.length l.
Proof.
  rewrite rewrite_line_cases, (starts_with_prompt_cases l).
  destruct l as [|c1 [|c2 [|c3 t]]]; try discriminate.
  - intros H. apply andb_prop in H as [-> _].
    unfold replacement. destruct (Ascii.eqb c1 "="); [now left|].
    right. cbn. lia.
  - intros H. apply andb_prop in H as [-> ->].
    unfold replacement. destruct (Ascii.eqb c1 "=").
    + left. rewrite starts_with_prompt_cases. reflexivity.
    + right. cbn. lia.
Qed.

Lemma rewrite_line_iter_stable (n : nat) :
  forall l : string,
    String.length l <= 2 * n ->
    starts_with_prompt (rewrite_line_iter n l) = false.
Proof.
  induction n as [|n IH]; intros l Hlen.
  - destruct l; [reflexivity | cbn in Hlen; lia].
  - cbn [rewrite_line_iter].
    destruct (starts_with_prompt l) eqn:E.
    + destruct (rewrite_line_progress l E) as [H | H].
      * now rewrite rewrite_line_iter_fixed.
      * apply IH. lia.
    + pose proof E as E'. apply rewrite_line_fixed in E'. rewrite E'.
      now rewrite rewrite_line_iter_fixed.
Qed.

Lemma rewrite_line_iter_single (n : nat) :
  forall l : string, single_line l -> single_line (rewrite_line_iter n l).
Proof.
  induction n as [|n IH]; intros l H; [assumption|].
  cbn. now apply IH, rewrite_line_single.
Qed.

Lemma remove_code_promt_iter_lines (n : nat) :
  forall text : string,
    remove_code_promt_iter n text
    = Ok (join_lines (map (rewrite_line_iter n) (split_lines text))).
Proof.
  induction n as [|n IH]; intros text.
  - cbn [remove_code_promt_iter].
    rewrite (map_ext (rewrite_line_iter 0) (fun l => l)) by reflexivity.
    now rewrite map_id, join_split_lines.
  - cbn [remove_code_promt_iter]. rewrite remove_code_promt_lines.
    cbn [bind]. rewrite IH, split_lines_by_line, map_map. reflexivity.
Qed.

Lemma split_lines_length (s l : string) :
  In l (split_lines s) -> String.length l <= String.length s.
Proof.
  revert l. induction s as [|c s IH]; intros l.
  - intros [<- | []]. cbn. lia.
  - cbn [split_lines]. destruct (Ascii.eqb c LF).
    + intros [<- | H]; [cbn; lia|]. apply IH in H. cbn. lia.
    + destruct (split_lines s) as [|k ks] eqn:E;
        [now destruct (split_lines_not_nil s)|].
      intros [<- | H].
      * specialize (IH k (or_introl eq_refl)). cbn. lia.
      * specialize (IH l (or_intror H)). cbn. lia.
Qed.

(** X7: run again and again, the filter settles: after [n] runs on a text
    of at most [2 * n] characters the result is a text that a further run
    leaves as it is. *)
Theorem repeated_runs_settle :
  forall (n : nat) (text : string),
    String.length text <= 2 * n ->
    exists out,
      remove_code_promt_iter n text = Ok out
      /\ remove_code_promt out = Ok out.
Proof.
  intros n text Hlen.
  exists (join_lines (map (rewrite_line_iter n) (split_lines text))).
  split; [apply remove_code_promt_iter_lines|].
  rewrite remove_code_promt_lines. unfold remove_prompts_by_line.
  rewrite split_join_lines.
  - f_equal. f_equal. rewrite map_map. apply map_ext_in.
    intros l Hl. apply rewrite_line_fixed, rewrite_line_iter_stable.
    apply split_lines_length in Hl. lia.
  - pose proof (split_lines_not_nil text).
    destruct (split_lines text); [contradiction | discriminate].
  - pose proof (split_lines_single text) as H.
    induction H; cbn; constructor;
      auto using rewrite_line_iter_single.
Qed.

Lemma repeated_runs_settle_witness :
  exists out,
    remove_code_promt_iter 4 ">> .. x" = Ok out
    /\ remove_code_promt out = Ok out.
Proof.
  apply (repeated_runs_settle 4 ">> .. x"). cbn. lia.
Defined.
